(** * browserker: the Element DOM mirror and the scan orchestrator

    A shallow embedding of [scanner/browser/element.go] (with the node and
    event constants of the [browser] package) and of
    [scanner/browserk_scanner.go], followed by the properties of the
    specification that concern them. *)

From Stdlib Require Import ZArith List Bool Lia Floats Uint63 Ascii String.
From stdpp Require Import base strings gmap.

Local Open Scope Z_scope.

(** ** Go runtime conventions *)

(** Go's [int] is 64 bits wide on the platforms the scanner targets; sums
    and differences wrap around in two's complement. *)
Module GoInt.

Definition min_int : Z := - 2 ^ 63.
Definition max_int : Z := 2 ^ 63 - 1.

Definition wrap (z : Z) : Z := (z + 2 ^ 63) mod 2 ^ 64 - 2 ^ 63.

Definition in_range (z : Z) : Prop := min_int <= z <= max_int.

Definition add (a b : Z) : Z := wrap (a + b).

(** [a / b] on [int]: truncated towards zero; the caller has excluded
    [b = 0], which panics. *)
Definition quot (a b : Z) : Z := wrap (Z.quot a b).

(** [int(f)] for a [float64]: the fraction is discarded.  A value that
    [int] cannot hold (and NaN, the infinities) converts to an
    implementation-specific value, which on amd64 is [min_int]. *)
Definition of_float (f : float) : Z :=
  match Prim2SF f with
  | S754_zero _ => 0
  | S754_finite s m e =>
      let mag := match e with
                 | Z0 => Zpos m
                 | Zpos p => Zpos m * 2 ^ Zpos p
                 | Zneg p => Zpos m / 2 ^ Zpos p
                 end in
      let v := if s then - mag else mag in
      if (min_int <=? v) && (v <=? max_int) then v else min_int
  | S754_infinity _ => min_int
  | S754_nan => min_int
  end.


End GoInt.

(** A call either returns or panics (index out of range, integer divide
    by zero, close of a closed channel). *)
Inductive outcome (A : Type) : Type :=
| Returned (a : A)
| Panicked (reason : string).
Arguments Returned {A} a.
Arguments Panicked {A} reason.

(** ** Errors of the [browser] package that Element operations return *)

Inductive error : Type :=
| ErrIncorrectElementType (NodeName ExpectedName : string)
| ErrInvalidElement
| ErrElementHasNoChildren
| ErrElementNotReady
| ErrInvalidDimensions (Message : string)
| ErrRemote (message : string).   (* an error returned by the debugger client *)

(** ** [centroid] *)

(** The loop [for i := 0; i < pointLen; i = i + 2] of [centroid], reading
    [points[i]] and [points[i+1]]; the guard before it has turned away
    the lists of odd length. *)
Fixpoint centroid_sum (points : list float) (x y : Z) : Z * Z :=
  match points with
  | px :: py :: rest =>
      centroid_sum rest (GoInt.add x (GoInt.of_float px))
                        (GoInt.add y (GoInt.of_float py))
  | _ => (x, y)
  end.

Definition centroid_divisor (points : list float) : Z :=
  Z.quot (Z.of_nat (length points)) 2.

Definition centroid (points : list float) : outcome (Z * Z * option error) :=
  let pointLen := Z.of_nat (length points) in
  if negb (Z.rem pointLen 2 =? 0) then
    Returned (-1, -1,
              Some (ErrInvalidDimensions "number of points are not divisible by two"))
  else
    let '(x, y) := centroid_sum points 0 0 in
    if centroid_divisor points =? 0 then
      Panicked "runtime error: integer divide by zero"
    else
      Returned (GoInt.quot x (centroid_divisor points),
                GoInt.quot y (centroid_divisor points), None).

Definition square_points : list float :=
  [0%float; 0%float; 10%float; 0%float; 10%float; 10%float; 0%float; 10%float].

(** ** Node and change-event constants *)

Definition NodeElement : Z := 0x1.
Definition NodeText : Z := 0x3.
Definition NodeProcessingInstruction : Z := 0x7.
Definition NodeComment : Z := 0x8.
Definition NodeDocumentType : Z := 0x10.
Definition NodeDocumentFragment : Z := 0x11.

Inductive ChangeEventType : Type :=
| DocumentUpdatedEvent
| SetChildNodesEvent
| AttributeModifiedEvent
| AttributeRemovedEvent
| InlineStyleInvalidatedEvent
| CharacterDataModifiedEvent
| ChildNodeCountUpdatedEvent
| ChildNodeInsertedEvent
| ChildNodeRemovedEvent.

(** ** Data supplied by the debugger client *)

(** The fields of [gcdapi.DOMNode] that the Element reads.  [Children] is
    [None] for a nil slice; a slot of the slice may hold a nil pointer. *)
#[warnings="-register-all"]
Inductive DOMNode : Type :=
  mkDOMNode {
    NodeId : Z;
    NodeType : Z;
    NodeName : string;
    NodeValue : string;
    ChildNodeCount : Z;
    Children : option (list (option DOMNode));
    Attributes : list string;
    FrameId : string;
    DocumentURL : string;
    ContentDocument : option DOMNode
  }.

Definition set_Children (c : option (list (option DOMNode))) (n : DOMNode) : DOMNode :=
  mkDOMNode (NodeId n) (NodeType n) (NodeName n) (NodeValue n) (ChildNodeCount n)
            c (Attributes n) (FrameId n) (DocumentURL n) (ContentDocument n).

(** [strings.ToLower] on the ASCII letters; tag names are ASCII. *)
Definition lower_ascii (c : ascii) : ascii :=
  let n := nat_of_ascii c in
  if ((65 <=? n) && (n <=? 90))%nat then ascii_of_nat (n + 32) else c.

Fixpoint ToLower (s : string) : string :=
  match s with
  | EmptyString => EmptyString
  | String c rest => String (lower_ascii c) (ToLower rest)
  end.

(** The fields of [gcdapi.InputDispatchKeyEventParams] that tell one key
    event from another. *)
Record InputDispatchKeyEventParams : Type :=
  mkKeyEvent {
    TheType : string;
    Key : string;
    Text : string
  }.


(** The commands an Element sends to the browser, each with the node id
    (or remote object id) it is sent for, and the methods of its tab that
    it calls to move the mouse and to type. *)
Inductive RemoteCall : Type :=
| CallGetOuterHTML (id : Z)
| CallResolveNode (id : Z)
| CallGetEventListeners (objectId : string)
| CallGetInlineStylesForNode (id : Z)
| CallGetComputedStyleForNode (id : Z)
| CallGetAttributes (id : Z)
| CallSetAttributeValue (id : Z) (name value : string)
| CallSetNodeValue (id : Z) (value : string)
| CallFocus (id : Z)
| CallScrollIntoViewIfNeeded (id : Z)
| CallGetBoxModel (id : Z)
| CallDispatchKeyEvent (key : InputDispatchKeyEventParams)
| CallClick (x y : float)            (* e.tab.Click(x, y) *)
| CallDoubleClick (x y : float)      (* e.tab.DoubleClick(x, y) *)
| CallMoveMouse (x y : float)        (* e.tab.MoveMouse(x, y) *)
| CallSendKeys (text : string).      (* e.tab.SendKeys(text) *)

(** The part of [Tab] that the Element uses: the wait policy and the
    answers of the remote browser.  A pointer result is [None] when nil. *)
Record Tab : Type :=
  mkTab {
    elementTimeout : Z;
    GetOuterHTMLWithParams : Z -> string * option error;
    ResolveNodeWithParams : Z -> option string * option error;
    DOMDebugger_GetEventListeners : string -> list string * option error;
    GetInlineStylesForNode : Z -> option string * option string * option error;
    GetComputedStyleForNode : Z -> list (string * string) * option error;
    DOM_GetAttributes : Z -> list string * option error;
    DOM_SetAttributeValue : Z -> string -> string -> option error;
    DOM_SetNodeValue : Z -> string -> option error;
    FocusWithParams : Z -> option error;
    ScrollIntoViewIfNeededWithParams : Z -> option error;
    GetBoxModelWithParams : Z -> option (list float) * option error;
    DispatchKeyEventWithParams : InputDispatchKeyEventParams -> option error;
    Tab_Click : float -> float -> option error;
    Tab_DoubleClick : float -> float -> option error;
    Tab_MoveMouse : float -> float -> option error;
    Tab_SendKeys : string -> option error
  }.

(** ** The Element *)

Inductive chan : Type := Open | Closed.

(** The struct of [element.go].  The mutex [lock] holds no data: what an
    operation does with it is recorded, in order, in the operation's
    trace (see [Event]). *)
Record Element : Type :=
  mkElement {
    attributes : gmap string string;
    nodeName : string;
    characterData : string;
    childNodeCount : Z;
    nodeType : Z;
    depth : Z;
    tab : Tab;
    node : option DOMNode;
    readyGate : chan;
    ID : Z;
    ready : bool;
    invalidated : bool
  }.

Definition set_attributes (v : gmap string string) (e : Element) : Element :=
  mkElement v (nodeName e) (characterData e) (childNodeCount e) (nodeType e)
            (depth e) (tab e) (node e) (readyGate e) (ID e) (ready e) (invalidated e).
Definition set_nodeName (v : string) (e : Element) : Element :=
  mkElement (attributes e) v (characterData e) (childNodeCount e) (nodeType e)
            (depth e) (tab e) (node e) (readyGate e) (ID e) (ready e) (invalidated e).
Definition set_characterData (v : string) (e : Element) : Element :=
  mkElement (attributes e) (nodeName e) v (childNodeCount e) (nodeType e)
            (depth e) (tab e) (node e) (readyGate e) (ID e) (ready e) (invalidated e).
Definition set_childNodeCount (v : Z) (e : Element) : Element :=
  mkElement (attributes e) (nodeName e) (characterData e) v (nodeType e)
            (depth e) (tab e) (node e) (readyGate e) (ID e) (ready e) (invalidated e).
Definition set_nodeType (v : Z) (e : Element) : Element :=
  mkElement (attributes e) (nodeName e) (characterData e) (childNodeCount e) v
            (depth e) (tab e) (node e) (readyGate e) (ID e) (ready e) (invalidated e).
Definition set_depth (v : Z) (e : Element) : Element :=
  mkElement (attributes e) (nodeName e) (characterData e) (childNodeCount e) (nodeType e)
            v (tab e) (node e) (readyGate e) (ID e) (ready e) (invalidated e).
Definition set_node (v : option DOMNode) (e : Element) : Element :=
  mkElement (attributes e) (nodeName e) (characterData e) (childNodeCount e) (nodeType e)
            (depth e) (tab e) v (readyGate e) (ID e) (ready e) (invalidated e).
Definition set_readyGate (v : chan) (e : Element) : Element :=
  mkElement (attributes e) (nodeName e) (characterData e) (childNodeCount e) (nodeType e)
            (depth e) (tab e) (node e) v (ID e) (ready e) (invalidated e).
Definition set_ID (v : Z) (e : Element) : Element :=
  mkElement (attributes e) (nodeName e) (characterData e) (childNodeCount e) (nodeType e)
            (depth e) (tab e) (node e) (readyGate e) v (ready e) (invalidated e).
Definition set_ready (v : bool) (e : Element) : Element :=
  mkElement (attributes e) (nodeName e) (characterData e) (childNodeCount e) (nodeType e)
            (depth e) (tab e) (node e) (readyGate e) (ID e) v (invalidated e).

(** ** Operations as state transformers with a trace *)

Inductive SelectCase : Type := CaseReadyGate | CaseTimeout | CaseExit.

Inductive Event : Type :=
| Lock | Unlock                      (* e.lock.Lock(), e.lock.Unlock() *)
| RLock | RUnlock                    (* e.lock.RLock(), e.lock.RUnlock() *)
| Remote (call : RemoteCall)         (* a command sent to the browser, answered before the next event *)
| CloseGate                          (* close(e.readyGate) *)
| Select (taken : SelectCase) (waited : nat)   (* a select that blocked for [waited] ticks *)
| Sleep (milliseconds : Z).                    (* time.Sleep *)

(** An operation on an Element: from the state it finds to its outcome,
    the state it leaves and what it did.  A panic keeps the state and the
    trace reached so far. *)
Definition Op (A : Type) : Type := Element -> outcome A * Element * list Event.

Definition ret {A} (a : A) : Op A := fun e => (Returned a, e, []).

Definition bind {A B} (m : Op A) (k : A -> Op B) : Op B :=
  fun e =>
    match m e with
    | (Returned a, e1, t1) =>
        let '(r, e2, t2) := k a e1 in (r, e2, t1 ++ t2)
    | (Panicked why, e1, t1) => (Panicked why, e1, t1)
    end.

#[global] Instance Op_ret : MRet Op := @ret.
#[global] Instance Op_bind : MBind Op := fun A B k m => bind m k.

Definition get : Op Element := fun e => (Returned e, e, []).
Definition gets {A} (f : Element -> A) : Op A := fun e => (Returned (f e), e, []).
Definition modify (f : Element -> Element) : Op unit := fun e => (Returned tt, f e, []).
Definition emit (ev : Event) : Op unit := fun e => (Returned tt, e, [ev]).
Definition panic {A} (why : string) : Op A := fun e => (Panicked why, e, []).

(** [defer d] followed by [body]: [d] runs when [body] is left, by return
    or by panic. *)
Definition defer {A} (d : Op unit) (body : Op A) : Op A :=
  fun e =>
    let '(r, e1, t1) := body e in
    let '(_, e2, t2) := d e1 in
    (r, e2, t1 ++ t2).

Definition result {A} (x : outcome A * Element * list Event) : outcome A := x.1.1.
Definition state {A} (x : outcome A * Element * list Event) : Element := x.1.2.
Definition trace {A} (x : outcome A * Element * list Event) : list Event := x.2.

(** A command to the browser, or a call of one of the tab's mouse and key
    methods: the answer comes from the tab. *)
Definition remote {A} (call : RemoteCall) (answer : Tab -> A) : Op A :=
  fun e => (Returned (answer (tab e)), e, [Remote call]).

Definition nil_dereference : string :=
  "runtime error: invalid memory address or nil pointer dereference".
Definition index_out_of_range : string := "runtime error: index out of range".

(** [p.field] through a pointer that may be nil. *)
Definition deref {A} (p : option A) : Op A :=
  match p with
  | Some a => mret a
  | None => panic nil_dereference
  end.

(** [close(e.readyGate)] *)
Definition close_readyGate : Op unit :=
  g ← gets readyGate;
  match g with
  | Open => emit CloseGate;; modify (set_readyGate Closed)
  | Closed => panic "close of closed channel"
  end.

(** ** The methods of [element.go]

    In the order of the file, but for [Click], [DoubleClick],
    [MouseOver], [SendKeys] and [SendRawKeys], which come after the
    [getCenter] they call.  [GetInnerText] and [String] are left out: the
    one is the tab's [GetChildrensCharacterData] and nothing else, the
    other is formatting. *)

Definition newElement (t : Tab) (nodeID depth : Z) : Element :=
  {| attributes := ∅; nodeName := EmptyString; characterData := EmptyString;
     childNodeCount := 0; nodeType := 0; depth := depth; tab := t; node := None;
     readyGate := Open; ID := nodeID; ready := false; invalidated := false |}.

(** updates the attribute name/value pair *)
Definition updateAttribute (name value : string) : Op unit :=
  emit Lock;;
  defer (emit Unlock)
    (modify (fun e => set_attributes (<[name := value]> (attributes e)) e)).

(** [for i := 0; i < len(attr); i += 2 { e.updateAttribute(attr[i], attr[i+1]) }] *)
Fixpoint updateAttributes (attr : list string) : Op unit :=
  match attr with
  | [] => mret tt
  | [_] => panic index_out_of_range
  | name :: value :: rest => updateAttribute name value;; updateAttributes rest
  end.

(** populate the Element with node data. *)
Definition populateElement (n : DOMNode) (depth : Z) : Op unit :=
  emit Lock;;
  modify (set_node (Some n));;
  modify (set_ID (NodeId n));;
  modify (set_depth depth);;
  modify (set_nodeType (NodeType n));;
  modify (set_nodeName (ToLower (NodeName n)));;
  modify (set_childNodeCount (ChildNodeCount n));;
  (if NodeType n =? NodeText then modify (set_characterData (NodeValue n)) else mret tt);;
  emit Unlock;;
  updateAttributes (Attributes n);;
  r ← gets ready;
  (if negb r then close_readyGate else mret tt);;
  emit Lock;;
  defer (emit Unlock) (modify (set_ready true)).

Definition newReadyElement (t : Tab) (n : DOMNode) (depth : Z)
  : outcome unit * Element * list Event :=
  populateElement n depth
    {| attributes := ∅; nodeName := ToLower (NodeName n); characterData := EmptyString;
       childNodeCount := 0; nodeType := 0; depth := 0; tab := t; node := None;
       readyGate := Open; ID := 0; ready := false; invalidated := false |}.

(** IsReady has the Chrome Debugger notified us of this Elements data yet? *)
Definition IsReady : Op bool :=
  emit RLock;;
  defer (emit RUnlock) (e ← get; mret (ready e && negb (invalidated e))).

Definition IsReadyInvalid : Op bool :=
  emit RLock;;
  defer (emit RUnlock) (e ← get; mret (ready e && invalidated e)).

Definition IsInvalid : Op bool :=
  emit RLock;;
  defer (emit RUnlock) (gets invalidated).


Definition Depth : Op Z := gets depth.












Definition NodeID : Op Z :=
  emit RLock;;
  defer (emit RUnlock) (gets ID).


(** GetDebuggerDOMNode returns the underlying DOMNode for this element. *)
Definition GetDebuggerDOMNode : Op (option DOMNode * option error) :=
  isReady ← IsReady;
  if negb isReady then mret (None, Some ErrElementNotReady)
  else
    emit RLock;;
    defer (emit RUnlock)
      (e ← get;
       if invalidated e then mret (None, Some ErrInvalidElement)
       else mret (node e, None)).

(** removes the attribute from our attributes list. *)
Definition removeAttribute (name : string) : Op unit :=
  emit Lock;;
  defer (emit Unlock)
    (modify (fun e => set_attributes (delete name (attributes e)) e)).

(** updates character data *)
Definition updateCharacterData (newValue : string) : Op unit :=
  emit Lock;;
  defer (emit Unlock) (modify (set_characterData newValue)).

(** updates child node counts. *)
Definition updateChildNodeCount (newValue : Z) : Op unit :=
  emit Lock;;
  defer (emit Unlock) (modify (set_childNodeCount newValue)).

(** adds the child to our DOMNode. *)
Definition addChild (child : option DOMNode) : Op unit :=
  emit Lock;;
  defer (emit Unlock)
    (e ← get;
     match node e with
     | None => mret tt
     | Some n =>
         let children := match Children n with Some cs => cs | None => [] end in
         modify (set_node (Some (set_Children (Some (children ++ [child])) n)));;
         modify (set_childNodeCount (GoInt.add (childNodeCount e) 1))
     end).

(** adds the children to our DOMNode *)
Fixpoint addChildren (childNodes : list (option DOMNode)) : Op unit :=
  match childNodes with
  | [] => mret tt
  | child :: rest =>
      (match child with
       | Some _ => addChild child
       | None => mret tt
       end);;
      addChildren rest
  end.




(** [ids[k] = child.NodeId] for each child in turn *)
Fixpoint child_ids (children : list (option DOMNode)) : Op (list Z) :=
  match children with
  | [] => mret []
  | child :: rest =>
      c ← deref child;
      ids ← child_ids rest;
      mret (NodeId c :: ids)
  end.

(** GetChildNodeIds returns nil if node is not ready *)
Definition GetChildNodeIds : Op (option (list Z) * option error) :=
  emit RLock;;
  defer (emit RUnlock)
    (e ← get;
     if negb (ready e) then mret (None, Some ErrElementNotReady)
     else
       match node e with
       | Some {| Children := Some children |} =>
           ids ← child_ids children; mret (Some ids, None)
       | _ => mret (None, Some ErrElementHasNoChildren)
       end).








(** GetAttributes of the node returning a map of name,value pairs. *)
Definition GetAttributes : Op (option (gmap string string) * option error) :=
  emit RLock;;
  id ← gets ID;
  '(attr, err) ← remote (CallGetAttributes id) (fun t => DOM_GetAttributes t id);
  emit RUnlock;;
  match err with
  | Some err => mret (None, Some err)
  | None =>
      updateAttributes attr;;
      attrs ← gets attributes;
      mret (Some attrs, None)
  end.

(** [attr[name]] on a map that may be nil: the zero value when absent. *)
Definition map_index (attr : option (gmap string string)) (name : string) : string :=
  match attr with
  | Some m => default EmptyString (m !! name)
  | None => EmptyString
  end.

Definition map_has (attr : option (gmap string string)) (name : string) : bool :=
  match attr with
  | Some m => bool_decide (is_Some (m !! name))
  | None => false
  end.

(** GetAttribute a single attribute by name, returns empty string if it
    does not exist or is empty. *)
Definition GetAttribute (name : string) : Op string :=
  '(attr, err) ← GetAttributes;
  match err with
  | Some _ => mret EmptyString
  | None => mret (map_index attr name)
  end.

(** HasAttribute similar to above, but works for boolean properties
    (checked, async etc).  Returns true if the attribute is set in our
    known list of attributes for this element. *)
Definition HasAttribute (name : string) : Op bool :=
  '(attr, err) ← GetAttributes;
  match err with
  | Some _ => mret false
  | None => mret (map_has attr name)
  end.






(** A callee without receiver, which returns or panics. *)
Definition call {A} (r : outcome A) : Op A := fun e => (r, e, []).









(** ** The scan orchestrator ([browserk_scanner.go]) *)

Module Scanner.

(** Navigation states of the crawl graph. *)
Inductive NavState : Type := NavUnvisited | NavInProcess | NavVisited | NavFailed.

(** The fields of [browserk.Config] that the engine reads. *)
Record Config : Type :=
  mkConfig {
    URL : string;
    DataPath : string;
    NumBrowsers : Z
  }.

(** Modelled from the spec: the browser pool ([browser.BrowserPool],
    [NewGCDBrowserPool]) is not part of these sources.  Following the
    specification's section 4.2 it is a fixed number of browsers of
    which some are out on lease; [Take] hands out an idle one (and has
    none to hand out when all are leased), [Return] takes one back. *)
Record BrowserPool : Type :=
  mkPool {
    maxBrowsers : Z;
    leased : Z
  }.

Definition NewGCDBrowserPool (maxBrowsers : Z) : BrowserPool :=
  {| maxBrowsers := maxBrowsers; leased := 0 |}.

Definition idle (p : BrowserPool) : Z := maxBrowsers p - leased p.

Definition Take (p : BrowserPool) : option BrowserPool :=
  if 0 <? idle p then Some {| maxBrowsers := maxBrowsers p; leased := leased p + 1 |}
  else None.

Definition Return (p : BrowserPool) : BrowserPool :=
  {| maxBrowsers := maxBrowsers p; leased := Z.max 0 (leased p - 1) |}.

(** A [context.Context] as the engine sees it: whether its [Done]
    channel has been closed.  Only the owner of the context can close
    it; the engine holds no cancel function. *)
Record Context : Type := mkContext { cancelled : bool }.

(** The engine.  The fields are nil ([None]) until [Init] has run. *)
Record Browserk : Type :=
  mkBrowserk {
    cfg : Config;
    browsers : option BrowserPool;
    scanContext : option Context;
    stateMonitor : option unit
  }.

Definition New (cfg : Config) : Browserk :=
  {| cfg := cfg; browsers := None; scanContext := None; stateMonitor := None |}.

(** [Init] with graph stores and a pool that start without error. *)
Definition Init (ctx : Context) (b : Browserk) : Browserk :=
  {| cfg := cfg b;
     browsers := Some (NewGCDBrowserPool (NumBrowsers (cfg b)));
     scanContext := Some ctx;
     stateMonitor := Some tt |}.

(** What [Start] does that the rest of the system can see. *)
Inductive ScanEvent : Type :=
| LogInfo (msg : string)
| Find (from to : NavState) (limit : Z).   (* b.crawlGraph.Find(ctx, from, to, limit) *)

(** What one pass of the loop finds when it reaches the select: whether
    the owner of the scan context has cancelled it by then, whether the
    state monitor has ticked, and which of the two the runtime takes
    when both are ready. *)
Record Observation : Type :=
  mkObservation {
    contextDone : bool;
    monitorTicked : bool;
    preferDone : bool
  }.

Inductive Branch : Type := BranchDone | BranchMonitor | BranchDefault.

(** A select with a default case: a ready case if there is one. *)
Definition select_branch (ctx : Context) (o : Observation) : Branch :=
  match cancelled ctx || contextDone o, monitorTicked o with
  | true, true => if preferDone o then BranchDone else BranchMonitor
  | true, false => BranchDone
  | false, true => BranchMonitor
  | false, false => BranchDefault
  end.

Inductive StartResult : Type :=
| StartReturned (err : option error)
| StartRunning                       (* still in the loop when the observations end *)
| StartPanicked (reason : string).

(** The loop of [Start], one observation per pass.  The entries that
    [Find] returns are not used: [processEntries] is never called. *)
Fixpoint Start_loop (b : Browserk) (ctx : Context) (passes : list Observation)
  : StartResult * list ScanEvent :=
  match passes with
  | [] => (StartRunning, [])
  | o :: rest =>
      match select_branch ctx o with
      | BranchDone =>
          (StartReturned None, [LogInfo "scan finished due to context complete"])
      | BranchMonitor =>
          let '(r, evs) := Start_loop b ctx rest in
          (r, LogInfo "state monitor ping" :: evs)
      | BranchDefault =>
          let '(r, evs) := Start_loop b ctx rest in
          (r, Find NavUnvisited NavInProcess (NumBrowsers (cfg b)) :: evs)
      end
  end.

(** Start the browsers *)
Definition Start (b : Browserk) (passes : list Observation)
  : StartResult * list ScanEvent :=
  match scanContext b, stateMonitor b with
  | Some ctx, Some _ => Start_loop b ctx passes
  | _, _ =>
      match passes with
      | [] => (StartRunning, [])
      | _ :: _ => (StartPanicked nil_dereference, [])
      end
  end.

(** Stop the browsers *)
Definition Stop (b : Browserk) : option error * Browserk := (None, b).


End Scanner.

(** ** Vocabulary of the statements *)

(** The name/value pairs of a flat attribute array. *)
Fixpoint attr_pairs (attr : list string) : list (string * string) :=
  match attr with
  | name :: value :: rest => (name, value) :: attr_pairs rest
  | _ => []
  end.

(** The map after the pairs of a flat array have been stored in turn. *)
Fixpoint insert_pairs (attr : list string) (m : gmap string string) : gmap string string :=
  match attr with
  | name :: value :: rest => insert_pairs rest (<[name := value]> m)
  | _ => m
  end.

Definition well_paired (attr : list string) : Prop := Nat.even (length attr) = true.

Definition is_CloseGate (ev : Event) : bool :=
  match ev with CloseGate => true | _ => false end.



(** How often a trace releases the readiness gate. *)
Definition gate_releases (t : list Event) : nat := length (filter is_CloseGate t).

(** A run of [populateElement] calls on one Element, each call starting
    from the state the call before it left; a panic ends the run. *)
Fixpoint populate_each (calls : list (DOMNode * Z)) (e : Element)
  : list (outcome unit * Element * list Event) :=
  match calls with
  | [] => []
  | (n, d) :: rest =>
      let r := populateElement n d e in
      r :: match result r with
           | Returned _ => populate_each rest (state r)
           | Panicked _ => []
           end
  end.

(** The data of node [n] at depth [d] is what Element [e] holds. *)
Definition populated_with (n : DOMNode) (d : Z) (e : Element) : Prop :=
  node e = Some n ∧ ID e = NodeId n ∧ depth e = d ∧
  nodeType e = NodeType n ∧ nodeName e = ToLower (NodeName n) ∧
  childNodeCount e = ChildNodeCount n ∧
  (NodeType n = NodeText → characterData e = NodeValue n) ∧
  (list_to_map (reverse (attr_pairs (Attributes n))) : gmap string string) ⊆ attributes e.

(** ** Concrete inputs *)

(** A tab whose browser answers every command. *)
Definition answering_tab : Tab :=
  {| elementTimeout := 5;
     GetOuterHTMLWithParams := fun _ => ("<div id='main'></div>", None);
     ResolveNodeWithParams := fun _ => (Some "object-1", None);
     DOMDebugger_GetEventListeners := fun _ => (["click"], None);
     GetInlineStylesForNode := fun _ => (Some "color: red", Some "width: 1px", None);
     GetComputedStyleForNode := fun _ => ([("display", "block")], None);
     DOM_GetAttributes := fun _ => (["id"; "main"; "class"; "wide"], None);
     DOM_SetAttributeValue := fun _ _ _ => None;
     DOM_SetNodeValue := fun _ _ => None;
     FocusWithParams := fun _ => None;
     ScrollIntoViewIfNeededWithParams := fun _ => None;
     GetBoxModelWithParams := fun _ => (Some square_points, None);
     DispatchKeyEventWithParams := fun _ => None;
     Tab_Click := fun _ _ => None;
     Tab_DoubleClick := fun _ _ => None;
     Tab_MoveMouse := fun _ _ => None;
     Tab_SendKeys := fun _ => None |}.

(** A tab whose browser refuses every command. *)
Definition failing_tab : Tab :=
  let refused := Some (ErrRemote "request timed out") in
  {| elementTimeout := 5;
     GetOuterHTMLWithParams := fun _ => (EmptyString, refused);
     ResolveNodeWithParams := fun _ => (None, refused);
     DOMDebugger_GetEventListeners := fun _ => ([], refused);
     GetInlineStylesForNode := fun _ => (None, None, refused);
     GetComputedStyleForNode := fun _ => ([], refused);
     DOM_GetAttributes := fun _ => ([], refused);
     DOM_SetAttributeValue := fun _ _ _ => refused;
     DOM_SetNodeValue := fun _ _ => refused;
     FocusWithParams := fun _ => refused;
     ScrollIntoViewIfNeededWithParams := fun _ => refused;
     GetBoxModelWithParams := fun _ => (None, refused);
     DispatchKeyEventWithParams := fun _ => refused;
     Tab_Click := fun _ _ => refused;
     Tab_DoubleClick := fun _ _ => refused;
     Tab_MoveMouse := fun _ _ => refused;
     Tab_SendKeys := fun _ => refused |}.

Definition leaf (id type : Z) (name value : string) (attr : list string) : DOMNode :=
  {| NodeId := id; NodeType := type; NodeName := name; NodeValue := value;
     ChildNodeCount := 0; Children := None; Attributes := attr;
     FrameId := EmptyString; DocumentURL := EmptyString; ContentDocument := None |}.

Definition sample_children : list (option DOMNode) :=
  [Some (leaf 11 NodeElement "SPAN" EmptyString []);
   None;
   Some (leaf 12 NodeText "#text" "hello" []);
   Some (leaf 12 NodeElement "A" EmptyString ["href"; "/"])].

Definition sample_div : DOMNode :=
  {| NodeId := 10; NodeType := NodeElement; NodeName := "DIV"; NodeValue := EmptyString;
     ChildNodeCount := 4; Children := Some sample_children;
     Attributes := ["id"; "main"; "disabled"; "true"];
     FrameId := EmptyString; DocumentURL := EmptyString; ContentDocument := None |}.

(** [sample_div] as mirrored by [newReadyElement]. *)
Definition sample_element : Element := state (newReadyElement answering_tab sample_div 2).

(** The lock operations of the [updateAttribute] calls of one attribute
    loop. *)
Definition attribute_locks (attr : list string) : list Event :=
  concat (map (fun _ => [Lock; Unlock]) (attr_pairs attr)).

(** The Element that [populateElement n d] leaves when started on [e]. *)
Definition populated (n : DOMNode) (d : Z) (e : Element) : Element :=
  {| attributes := insert_pairs (Attributes n) (attributes e);
     nodeName := ToLower (NodeName n);
     characterData := if NodeType n =? NodeText then NodeValue n else characterData e;
     childNodeCount := ChildNodeCount n;
     nodeType := NodeType n;
     depth := d;
     tab := tab e;
     node := Some n;
     readyGate := Closed;
     ID := NodeId n;
     ready := true;
     invalidated := invalidated e |}.

(** A call that returned and left the Element ready with its gate closed. *)
Definition populated_run (r : outcome unit * Element * list Event) : Prop :=
  result r = Returned tt ∧ ready (state r) = true ∧ readyGate (state r) = Closed.

(** A sequential history keeps the flag and the gate together: the gate
    is closed exactly when the Element is ready. *)
Definition gate_follows_ready (e : Element) : Prop :=
  readyGate e = if ready e then Closed else Open.

(** Three deliveries of node data for one Element: the node, the node
    again with other attributes, and the node turned into a text node. *)
Definition sample_calls : list (DOMNode * Z) :=
  [(leaf 10 NodeElement "DIV" EmptyString ["id"; "main"], 2);
   (leaf 10 NodeElement "DIV" EmptyString ["id"; "other"; "class"; "wide"], 2);
   (leaf 10 NodeText "#text" "hello" [], 3)].


(** ** The query operations as one family *)













(** ** The operations that send a command, as one family *)



















(** ** Engines to run *)

Definition with_browsers (p : Scanner.BrowserPool) (b : Scanner.Browserk) : Scanner.Browserk :=
  {| Scanner.cfg := Scanner.cfg b;
     Scanner.browsers := Some p;
     Scanner.scanContext := Scanner.scanContext b;
     Scanner.stateMonitor := Scanner.stateMonitor b |}.

(** The engine of the command line's default configuration, after [Init]
    with a background context. *)
Definition running_engine : Scanner.Browserk :=
  Scanner.Init (Scanner.mkContext false)
    (Scanner.New (Scanner.mkConfig "http://localhost/" "browserktmp" 3)).

(** The same engine while one browser of its pool is out on lease. *)
Definition busy_engine : Scanner.Browserk :=
  match Scanner.Take (Scanner.NewGCDBrowserPool 3) with
  | Some p => with_browsers p running_engine
  | None => running_engine
  end.

(** A pass that finds neither the context done nor the monitor ticked. *)
Definition quiet_pass : Scanner.Observation := Scanner.mkObservation false false false.



(** The reading of the specification: after [Stop] the scan context is
    cancelled and no browser is out on lease any more. *)
Definition stop_shuts_down : Prop :=
  ∀ b : Scanner.Browserk,
    (∀ ctx, Scanner.scanContext (Scanner.Stop b).2 = Some ctx →
            Scanner.cancelled ctx = true) ∧
    (∀ pool, Scanner.browsers (Scanner.Stop b).2 = Some pool →
             Scanner.leased pool = 0).



(** ** Integer conversions *)


Lemma wrap_range z : GoInt.in_range (GoInt.wrap z).
Proof.
  unfold GoInt.in_range, GoInt.wrap, GoInt.min_int, GoInt.max_int.
  pose proof (Z.mod_pos_bound (z + 2 ^ 63) (2 ^ 64) ltac:(lia)). lia.
Qed.


(** ** [centroid] *)

Lemma rem2_of_odd (n : nat) : Nat.odd n = true → Z.rem (Z.of_nat n) 2 = 1.
Proof.
  intros H. apply Nat.odd_spec in H as [k ->].
  rewrite Z.rem_mod_nonneg by lia.
  replace (Z.of_nat (2 * k + 1)) with (1 + Z.of_nat k * 2) by lia.
  rewrite Z.mod_add by lia. reflexivity.
Qed.

Lemma rem2_of_even (n : nat) : Nat.even n = true → Z.rem (Z.of_nat n) 2 = 0.
Proof.
  intros H. apply Nat.even_spec in H as [k ->].
  rewrite Z.rem_mod_nonneg by lia.
  replace (Z.of_nat (2 * k)) with (0 + Z.of_nat k * 2) by lia.
  rewrite Z.mod_add by lia. reflexivity.
Qed.

Lemma centroid_odd_length (points : list float) :
  Nat.odd (length points) = true →
  centroid points =
    Returned (-1, -1,
              Some (ErrInvalidDimensions "number of points are not divisible by two")).
Proof.
  intros H. unfold centroid. rewrite (rem2_of_odd _ H). reflexivity.
Qed.

(** C4.  The centroid of the square [0,0,10,0,10,10,0,10] is [(5,5)] with a
    nil error; a point list of odd length yields the invalid-dimensions
    error, with the placeholder coordinates [-1,-1] and no averaging. *)
Theorem centroid_square_and_odd :
  centroid square_points = Returned (5, 5, None) ∧
  ∀ points : list float,
    Nat.odd (length points) = true →
    centroid points =
      Returned (-1, -1,
                Some (ErrInvalidDimensions "number of points are not divisible by two")).
Proof.
  split.
  - vm_compute. reflexivity.
  - apply centroid_odd_length.
Qed.

Lemma centroid_square_and_odd_witness :
  centroid square_points = Returned (5, 5, None) ∧
  Nat.odd (length [1%float; 2%float; 3%float]) = true ∧
  centroid [1%float; 2%float; 3%float] =
    Returned (-1, -1,
              Some (ErrInvalidDimensions "number of points are not divisible by two")).
Proof.
  split; [apply centroid_square_and_odd |].
  split; [reflexivity |].
  apply (proj2 centroid_square_and_odd [1%float; 2%float; 3%float]). reflexivity.
Defined.

(** The divisor [pointLen / 2] of a list that passes the guard is zero
    only for the empty list. *)
Lemma centroid_divisor_nonempty (points : list float) :
  points ≠ [] → Nat.even (length points) = true → 0 < centroid_divisor points.
Proof.
  intros Hne Hev. unfold centroid_divisor.
  destruct points as [|a [|b rest]]; [done | discriminate |].
  cbn [length]. apply Z.quot_str_pos. lia.
Qed.

Lemma centroid_even_nonempty_returns (points : list float) :
  points ≠ [] → Nat.even (length points) = true →
  ∃ x y, centroid points = Returned (x, y, None).
Proof.
  intros Hne Hev. unfold centroid.
  rewrite (rem2_of_even _ Hev). cbn [Z.eqb negb].
  destruct (centroid_sum points 0 0) as [x y].
  pose proof (centroid_divisor_nonempty points Hne Hev) as Hd.
  destruct (Z.eqb_spec (centroid_divisor points) 0); [lia |].
  eauto.
Qed.

(** C9.  The empty point list passes the odd-length guard, the divisor
    [pointLen / 2] is zero for it, and the division panics. *)
Theorem centroid_empty_divides_by_zero :
  Z.rem (Z.of_nat (length (@nil float))) 2 = 0 ∧
  centroid_divisor [] = 0 ∧
  centroid [] = Panicked "runtime error: integer divide by zero".
Proof. repeat split. Qed.

(** ** Running operations *)

Ltac run_op :=
  unfold result, state, trace, mbind, mret, Op_bind, Op_ret, bind, ret, defer,
    emit, get, gets, modify, panic, remote, deref, call in *;
  cbn [fst snd] in *.

(** ** [removeChild] *)





(** ** [populateElement] *)

Lemma two_step_induction {A} (P : list A → Prop) :
  P [] →
  (∀ a, P [a]) →
  (∀ a b l, P l → P (a :: b :: l)) →
  ∀ l, P l.
Proof.
  intros Hnil Hone Hstep l.
  enough (H : P l ∧ ∀ a, P (a :: l)) by apply H.
  induction l as [|b l [IH0 IH1]]; [by split |].
  split; [apply IH1 |]. intros a. by apply Hstep.
Qed.

Lemma set_attributes_same (e : Element) : set_attributes (attributes e) e = e.
Proof. by destruct e. Qed.

Lemma set_attributes_twice (m1 m2 : gmap string string) (e : Element) :
  set_attributes m2 (set_attributes m1 e) = set_attributes m2 e.
Proof. by destruct e. Qed.

(** The attribute loop stores the pairs in turn, and panics on the name
    that is left over when the array has odd length. *)
Lemma updateAttributes_run (attr : list string) :
  ∀ e, updateAttributes attr e =
         (if Nat.even (length attr) then Returned tt else Panicked index_out_of_range,
          set_attributes (insert_pairs attr (attributes e)) e,
          attribute_locks attr).
Proof.
  induction attr as [|name|name value rest IH] using two_step_induction; intros e.
  - cbn. by rewrite set_attributes_same.
  - cbn. by rewrite set_attributes_same.
  - cbn [updateAttributes]. unfold updateAttribute. run_op.
    rewrite IH. cbn. rewrite set_attributes_twice.
    by destruct (Nat.even (length rest)).
Qed.

Lemma updateAttributes_well_paired (attr : list string) :
  well_paired attr →
  ∀ e, updateAttributes attr e =
         (Returned tt, set_attributes (insert_pairs attr (attributes e)) e,
          attribute_locks attr).
Proof. intros H e. by rewrite updateAttributes_run, H. Qed.

Lemma insert_pairs_union (attr : list string) :
  ∀ m : gmap string string,
    insert_pairs attr m = list_to_map (reverse (attr_pairs attr)) ∪ m.
Proof.
  induction attr as [|name|name value rest IH] using two_step_induction; intros m.
  - cbn. by rewrite (left_id_L ∅ (∪)).
  - cbn. by rewrite (left_id_L ∅ (∪)).
  - cbn [insert_pairs attr_pairs].
    rewrite IH, reverse_cons, list_to_map_app. cbn [list_to_map foldr].
    rewrite <- (assoc_L (∪)). f_equal.
    by rewrite insert_empty, <- insert_union_singleton_l.
Qed.

(** One call: on an Element whose gate follows its flag, [populateElement]
    returns, leaves the node's data, and closes the gate only if the
    Element was not ready. *)
Lemma populateElement_run (n : DOMNode) (d : Z) (e : Element) :
  well_paired (Attributes n) →
  gate_follows_ready e →
  populateElement n d e =
    (Returned tt, populated n d e,
     [Lock; Unlock] ++ attribute_locks (Attributes n) ++
     (if ready e then [] else [CloseGate]) ++ [Lock; Unlock]).
Proof.
  intros Hattr Hgate. unfold populateElement. run_op.
  destruct e as [attrs0 name0 data0 count0 type0 depth0 tab0 node0 gate0 id0 ready0 inv0].
  unfold gate_follows_ready in Hgate. cbn in Hgate. subst gate0.
  destruct (NodeType n =? NodeText) eqn:Htext; cbn;
    rewrite (updateAttributes_well_paired _ Hattr); cbn;
    unfold close_readyGate; run_op;
    destruct ready0; cbn; unfold populated; cbn; rewrite Htext;
    rewrite ?app_nil_r; reflexivity.
Qed.

Lemma populated_gate_follows_ready (n : DOMNode) (d : Z) (e : Element) :
  gate_follows_ready (populated n d e).
Proof. reflexivity. Qed.

Lemma populated_populated_with (n : DOMNode) (d : Z) (e : Element) :
  well_paired (Attributes n) → populated_with n d (populated n d e).
Proof.
  intros Hattr. unfold populated_with, populated. cbn.
  repeat split; try done.
  - intros Htext. by rewrite Htext.
  - rewrite insert_pairs_union. apply map_union_subseteq_l.
Qed.

Lemma attribute_locks_no_release (attr : list string) :
  gate_releases (attribute_locks attr) = 0%nat.
Proof.
  unfold gate_releases, attribute_locks.
  induction (attr_pairs attr) as [|p ps IH]; [reflexivity | exact IH].
Qed.

Lemma populate_trace_releases (attr : list string) (r : bool) :
  gate_releases ([Lock; Unlock] ++ attribute_locks attr ++
                 (if r then [] else [CloseGate]) ++ [Lock; Unlock])
  = if r then 0%nat else 1%nat.
Proof.
  pose proof (attribute_locks_no_release attr) as H.
  unfold gate_releases in *.
  rewrite !filter_app, !length_app, H. by destruct r.
Qed.

(** A node with a name left over in its attribute array: the loop panics
    before the gate is reached, and readiness is as it was. *)
Lemma populateElement_unpaired (n : DOMNode) (d : Z) (e : Element) :
  Nat.odd (length (Attributes n)) = true →
  result (populateElement n d e) = Panicked index_out_of_range ∧
  ready (state (populateElement n d e)) = ready e ∧
  readyGate (state (populateElement n d e)) = readyGate e ∧
  gate_releases (trace (populateElement n d e)) = 0%nat.
Proof.
  intros Hodd. unfold populateElement. run_op.
  assert (Hev : Nat.even (length (Attributes n)) = false).
  { rewrite <- Nat.negb_odd, Hodd. reflexivity. }
  pose proof (attribute_locks_no_release (Attributes n)) as Hlocks.
  destruct e; destruct (NodeType n =? NodeText); cbn -[gate_releases];
    rewrite updateAttributes_run, Hev; cbn -[gate_releases];
    rewrite ?app_nil_r; (repeat split; exact Hlocks).
Qed.

(** Population of an Element that is already ready: every call returns,
    none releases the gate, readiness stays. *)
Lemma populate_each_ready (calls : list (DOMNode * Z)) :
  ∀ e : Element,
    ready e = true →
    gate_follows_ready e →
    Forall (fun c => well_paired (Attributes c.1)) calls →
    Forall populated_run (populate_each calls e) ∧
    map (fun r => gate_releases (trace r)) (populate_each calls e)
      = repeat 0%nat (length calls) ∧
    Forall2 (fun c r => populated_with c.1 c.2 (state r)) calls (populate_each calls e).
Proof.
  induction calls as [|[n d] rest IH]; intros e Hready Hgate Hwf.
  - cbn. repeat split; constructor.
  - inversion Hwf as [|? ? Hn Hrest]; subst. cbn in Hn.
    cbn [populate_each]. rewrite (populateElement_run n d e Hn Hgate).
    cbn [result state trace fst snd].
    destruct (IH (populated n d e) eq_refl (populated_gate_follows_ready n d e) Hrest)
      as (Hall & Hrel & Hdata).
    split; [| split].
    + constructor; [by repeat split | exact Hall].
    + cbn [map length repeat trace snd]. rewrite populate_trace_releases, Hready.
      f_equal. exact Hrel.
    + constructor; [| exact Hdata]. cbn. by apply populated_populated_with.
Qed.

(** C1.  Through any run of [populateElement] calls on an Element that is
    not ready (gate open, node attribute arrays in name/value pairs),
    every call returns; the first call releases the readiness gate once
    and no later call releases it; after each call the Element is ready
    with its gate closed; and each call leaves the tag name, type,
    character data (of a text node), attributes, child count and depth of
    its node. *)
Theorem populate_ready_exactly_once
    (e : Element) (first : DOMNode * Z) (later : list (DOMNode * Z)) :
  ready e = false →
  readyGate e = Open →
  Forall (fun c => well_paired (Attributes c.1)) (first :: later) →
  length (populate_each (first :: later) e) = S (length later) ∧
  Forall populated_run (populate_each (first :: later) e) ∧
  map (fun r => gate_releases (trace r)) (populate_each (first :: later) e)
    = 1%nat :: repeat 0%nat (length later) ∧
  Forall2 (fun c r => populated_with c.1 c.2 (state r))
          (first :: later) (populate_each (first :: later) e).
Proof.
  intros Hready Hopen Hwf. destruct first as [n d].
  inversion Hwf as [|? ? Hn Hrest]; subst. cbn in Hn.
  assert (Hgate : gate_follows_ready e).
  { unfold gate_follows_ready. by rewrite Hready, Hopen. }
  cbn [populate_each]. rewrite (populateElement_run n d e Hn Hgate).
  cbn [result state trace fst snd].
  destruct (populate_each_ready later (populated n d e) eq_refl
              (populated_gate_follows_ready n d e) Hrest) as (Hall & Hrel & Hdata).
  split; [| split; [| split]].
  - cbn [length]. f_equal.
    rewrite <- (length_map (fun r => gate_releases (trace r))), Hrel.
    apply repeat_length.
  - constructor; [by repeat split | exact Hall].
  - cbn [map trace snd]. rewrite populate_trace_releases, Hready. f_equal. exact Hrel.
  - constructor; [| exact Hdata]. cbn. by apply populated_populated_with.
Qed.

Lemma populate_ready_exactly_once_witness :
  map (fun r => gate_releases (trace r))
      (populate_each sample_calls (newElement answering_tab 10 2)) = [1; 0; 0]%nat ∧
  Forall populated_run (populate_each sample_calls (newElement answering_tab 10 2)).
Proof.
  destruct (populate_ready_exactly_once (newElement answering_tab 10 2)
              (leaf 10 NodeElement "DIV" EmptyString ["id"; "main"], 2)
              (tail sample_calls) eq_refl eq_refl) as (_ & Hall & Hrel & _).
  - repeat constructor.
  - split; [exact Hrel | exact Hall].
Defined.

(** ** [WaitForReady] *)








(** ** The query operations *)












(** ** [GetAttribute] and [HasAttribute] *)

Lemma GetAttributes_fetch_failed (e : Element) (attr : list string) (err : error) :
  DOM_GetAttributes (tab e) (ID e) = (attr, Some err) →
  GetAttributes e = (Returned (None, Some err), e, [RLock; Remote (CallGetAttributes (ID e)); RUnlock]).
Proof. intros H. unfold GetAttributes. run_op. by rewrite H. Qed.

Lemma GetAttributes_fetched (e : Element) (attr : list string) :
  DOM_GetAttributes (tab e) (ID e) = (attr, None) →
  well_paired attr →
  result (GetAttributes e) = Returned (Some (insert_pairs attr (attributes e)), None) ∧
  state (GetAttributes e) = set_attributes (insert_pairs attr (attributes e)) e.
Proof.
  intros H Hattr. unfold GetAttributes. run_op. rewrite H. cbn.
  rewrite updateAttributes_run, Hattr. cbn. by destruct e.
Qed.

(** C10.  When the attribute fetch fails, [GetAttribute] returns the empty
    string and [HasAttribute] returns false, whatever the name: the error
    stays inside.  When the fetch succeeds they answer from the Element's
    attribute map with the fetched pairs stored in it, and [GetAttribute]
    returns the empty string for a name that map does not hold. *)
Theorem GetAttribute_HasAttribute_swallow_fetch_error
    (e : Element) (name : string) (attr : list string) :
  (∀ err, DOM_GetAttributes (tab e) (ID e) = (attr, Some err) →
          result (GetAttribute name e) = Returned EmptyString ∧
          result (HasAttribute name e) = Returned false) ∧
  (DOM_GetAttributes (tab e) (ID e) = (attr, None) → well_paired attr →
   result (GetAttribute name e)
     = Returned (default EmptyString (insert_pairs attr (attributes e) !! name)) ∧
   result (HasAttribute name e)
     = Returned (bool_decide (is_Some (insert_pairs attr (attributes e) !! name))) ∧
   (insert_pairs attr (attributes e) !! name = None →
    result (GetAttribute name e) = Returned EmptyString ∧
    result (HasAttribute name e) = Returned false)).
Proof.
  split.
  - intros err H. unfold GetAttribute, HasAttribute. run_op.
    by rewrite (GetAttributes_fetch_failed e attr err H).
  - intros H Hattr.
    destruct (GetAttributes_fetched e attr H Hattr) as [Hres Hst].
    assert (Hget : result (GetAttribute name e)
              = Returned (default EmptyString (insert_pairs attr (attributes e) !! name))).
    { unfold GetAttribute. run_op.
      destruct (GetAttributes e) as [[r e'] t]. cbn in Hres. by subst r. }
    assert (Hhas : result (HasAttribute name e)
              = Returned (bool_decide (is_Some (insert_pairs attr (attributes e) !! name)))).
    { unfold HasAttribute. run_op.
      destruct (GetAttributes e) as [[r e'] t]. cbn in Hres. by subst r. }
    split; [exact Hget |]. split; [exact Hhas |].
    intros Habsent. rewrite Hget, Hhas, Habsent. by split.
Qed.

Lemma GetAttribute_HasAttribute_swallow_fetch_error_witness :
  (result (GetAttribute "id" (newElement failing_tab 10 0)) = Returned EmptyString ∧
   result (HasAttribute "id" (newElement failing_tab 10 0)) = Returned false) ∧
  (result (GetAttribute "title" sample_element) = Returned EmptyString ∧
   result (HasAttribute "title" sample_element) = Returned false) ∧
  result (GetAttribute "class" sample_element) = Returned "wide".
Proof.
  split; [| split].
  - apply (proj1 (GetAttribute_HasAttribute_swallow_fetch_error
                    (newElement failing_tab 10 0) "id" [])
             (ErrRemote "request timed out")).
    reflexivity.
  - destruct (proj2 (GetAttribute_HasAttribute_swallow_fetch_error
                       sample_element "title" ["id"; "main"; "class"; "wide"])
                eq_refl eq_refl) as (_ & _ & Habsent).
    apply Habsent. by vm_compute.
  - destruct (proj2 (GetAttribute_HasAttribute_swallow_fetch_error
                       sample_element "class" ["id"; "main"; "class"; "wide"])
                eq_refl eq_refl) as (Hget & _).
    rewrite Hget. by vm_compute.
Defined.

(** ** The lock and the commands *)









(** *** The mouse and the keys *)

















(** ** The orchestrator *)






(** [Stop] returns nil in every state of the engine, before [Init] as
    after it, and a second call does what the first did: the engine it
    leaves is the engine it found, with the context it found, and [Start]
    runs on it as before. *)
Lemma Stop_returns_nil (b : Scanner.Browserk) :
  (Scanner.Stop b).1 = None ∧
  Scanner.Stop (Scanner.Stop b).2 = Scanner.Stop b ∧
  Scanner.scanContext (Scanner.Stop b).2 = Scanner.scanContext b ∧
  ∀ passes, Scanner.Start (Scanner.Stop b).2 passes = Scanner.Start b passes.
Proof. repeat split. Qed.

(** C7.  [Stop], whose comment reads "Stop the browsers", called on an
    engine that has a browser out on lease: it returns nil, the scan
    context is not cancelled, the lease is still out and the pool is as it
    was, and [Start] goes on asking for work; so it does not do what the
    specification says of it. *)
Theorem Stop_does_not_shut_down :
  (Scanner.Stop busy_engine).1 = None ∧
  Scanner.scanContext (Scanner.Stop busy_engine).2 = Some (Scanner.mkContext false) ∧
  Scanner.browsers (Scanner.Stop busy_engine).2 = Some (Scanner.mkPool 3 1) ∧
  Scanner.Start (Scanner.Stop busy_engine).2 [quiet_pass]
    = (Scanner.StartRunning, [Scanner.Find Scanner.NavUnvisited Scanner.NavInProcess 3]) ∧
  ¬ stop_shuts_down.
Proof.
  split; [reflexivity |].
  split; [reflexivity |]. split; [reflexivity |]. split; [reflexivity |].
  intros H. destruct (H busy_engine) as [Hctx _].
  specialize (Hctx (Scanner.mkContext false) eq_refl). discriminate Hctx.
Qed.
